(** * CrawlSpider: rule-driven link following (scrapy/spiders/crawl.py)

    A shallow embedding of [Rule], [CrawlSpider._requests_to_follow],
    [CrawlSpider.parse_with_rules], [CrawlSpider._parse],
    [CrawlSpider._callback], [CrawlSpider._errback] and
    [CrawlSpider._handle_failure], with the properties the specification
    states about them (C1 to C10) and further properties read off the code
    (X1 to X14).

    Python generators are modelled by a writer-with-exceptions monad
    [Gen]: running a generator gives the list of values it yielded, in
    order, and either the exception that stopped it or its return value. *)

From stdpp Require Import base gmap sets list strings.

Set Warnings "-clear-no-such-hyp".

Local Open Scope string_scope.
Local Open Scope list_scope.

(** ** Data model *)

(** Modelled from the spec: [scrapy.link.Link] is not part of the sources;
    the specification gives it as the value object {url, anchor_text} with
    equality and hash by url. Membership of a link in a Python [set] is
    therefore membership of its url, and the seen-set below stores urls. *)
Record Link := mkLink { url : string; text : string }.

(** Values stored in a request's or response's [meta] dictionary. *)
Inductive MetaVal :=
| MInt (n : Z)
| MStr (s : string).

(** The two engine routing functions a request built by the spider is bound
    to, and any other handler a request filter may put in their place. *)
Inductive Handler :=
| CrawlSpider_callback
| CrawlSpider_errback
| OtherHandler (name : string).

Record Request := mkRequest {
  req_url : string;
  req_callback : Handler;
  req_errback : Handler;
  req_meta : gmap string MetaVal
}.

(** A response: [resp_html] is [isinstance(response, HtmlResponse)];
    [page_links] are the links a catch-all extractor finds in the page. *)
Record Response := mkResponse {
  resp_url : string;
  resp_html : bool;
  page_links : list Link;
  resp_meta : gmap string MetaVal
}.

(** [twisted.python.failure.Failure], with the request it belongs to. *)
Record Failure := mkFailure {
  fail_request : Request;
  fail_reason : string
}.

(** Python values that callbacks return and generators yield. *)
#[warnings="-register-all"]
Inductive Value :=
| VNone
| VItem (fields : list (string * string))
| VRequest (r : Request)
| VSeq (l : list Value)
| VAwaitable (result : Value)
| VAsyncIter (produced : list Value).

(** Python truthiness, as used by [x or ()] and [if x:]. *)
Definition truthy (v : Value) : bool :=
  match v with
  | VNone => false
  | VItem [] => false
  | VItem (_ :: _) => true
  | VRequest _ => true
  | VSeq [] => false
  | VSeq (_ :: _) => true
  | VAwaitable _ => true
  | VAsyncIter _ => true
  end.

(** [v or ()] *)
Definition or_empty (v : Value) : Value :=
  if truthy v then v else VSeq [].

Inductive Exn :=
| TypeError
| KeyError
| IndexError
| AttributeError.

(** ** Generators *)

Definition Gen (A : Type) : Type := list Value * (Exn + A).

#[global] Instance Gen_ret : MRet Gen := λ A a, ([], inr a).
Definition raise {A} (e : Exn) : Gen A := ([], inl e).
Definition yield (v : Value) : Gen unit := ([v], inr tt).

#[global] Instance Gen_bind : MBind Gen := λ A B k m,
  match m with
  | (out, inl e) => (out, inl e)
  | (out, inr a) => let '(out', r) := k a in (out ++ out', r)
  end.

Arguments Gen_bind {_ _} _ _ : simpl never.
Arguments Gen_ret {_} _ : simpl never.

(** [for x in l: yield x] and [yield from l] *)
Definition yield_from (l : list Value) : Gen unit := (l, inr tt).

Definition yielded {A} (m : Gen A) : list Value := m.1.
Definition outcome {A} (m : Gen A) : Exn + A := m.2.

(** ** Callables *)

(** The callables a spider and its rules hold, by signature. *)
Inductive PyFun :=
| FCallback (f : Response → gmap string Value → Value)
| FErrback (f : Failure → Value)
| FProcessLinks (f : list Link → list Link)
| FProcessRequest (f : Request → Response → option Request).

(** A [Callable | str] rule field. *)
Inductive Method :=
| MCallable (f : PyFun)
| MName (name : string).

(** Truthiness of a [Callable | str | None] field. *)
Definition given (m : option Method) : bool :=
  match m with
  | None => false
  | Some (MName "") => false
  | Some _ => true
  end.

Definition _identity (x : list Link) : list Link := x.

Definition _identity_process_request (request : Request) (response : Response)
  : option Request := Some request.

(** Modelled from the spec: [scrapy.linkextractors.LinkExtractor] is an
    external collaborator, "a function extract(response) -> sequence<Link>",
    deterministic per response. *)
Record LinkExtractor := mkLinkExtractor {
  extract_links : Response → list Link
}.

(** [LinkExtractor()], the catch-all extractor. *)
Definition _default_link_extractor : LinkExtractor :=
  mkLinkExtractor page_links.

(** ** Rule *)

Record Rule := mkRule {
  link_extractor : LinkExtractor;
  callback : option Method;
  errback : option Method;
  cb_kwargs : gmap string Value;
  process_links : option Method;
  process_request : option Method;
  follow : bool
}.

(** [a or b] on rule fields. *)
Definition or_default (m : option Method) (d : PyFun) : option Method :=
  if given m then m else Some (MCallable d).

(** [Rule.__init__] *)
Definition Rule_init
    (link_extractor : option LinkExtractor)
    (callback : option Method)
    (cb_kwargs : option (gmap string Value))
    (follow : option bool)
    (process_links : option Method)
    (process_request : option Method)
    (errback : option Method) : Rule :=
  {| link_extractor := default _default_link_extractor link_extractor;
     callback := callback;
     errback := errback;
     cb_kwargs := default ∅ cb_kwargs;
     process_links := or_default process_links (FProcessLinks _identity);
     process_request :=
       or_default process_request (FProcessRequest _identity_process_request);
     follow := match follow with
               | Some b => b
               | None => negb (given callback)
               end |}.

(** ** CrawlSpider *)

(** A spider instance: [attrs] are the methods [getattr] finds on it,
    [rules] the declared rules of its class, [_rules] the compiled copies,
    [_follow_links] the attribute [from_crawler] sets (absent until then),
    [process_results] and [parse_start_url] the two overridable hooks. *)
Record CrawlSpider := mkCrawlSpider {
  attrs : gmap string PyFun;
  rules : list Rule;
  _rules : list Rule;
  _follow_links : option bool;
  process_results : Response → Value → Value;
  parse_start_url : Response → gmap string Value → Value
}.

(** [_get_method] *)
Definition _get_method (method : option Method) (spider : CrawlSpider)
  : option Method :=
  match method with
  | Some (MCallable f) => Some (MCallable f)
  | Some (MName name) => MCallable <$> attrs spider !! name
  | None => None
  end.

(** [Rule._compile], on the copy [_compile_rules] makes. *)
Definition _compile (self : Rule) (spider : CrawlSpider) : Rule :=
  {| link_extractor := link_extractor self;
     callback := _get_method (callback self) spider;
     errback := _get_method (errback self) spider;
     cb_kwargs := cb_kwargs self;
     process_links := _get_method (process_links self) spider;
     process_request := _get_method (process_request self) spider;
     follow := follow self |}.

(** [CrawlSpider._compile_rules] *)
Definition _compile_rules (self : CrawlSpider) : CrawlSpider :=
  {| attrs := attrs self;
     rules := rules self;
     _rules := (λ rule, _compile rule self) <$> rules self;
     _follow_links := _follow_links self;
     process_results := process_results self;
     parse_start_url := parse_start_url self |}.

(** The hooks as [CrawlSpider] defines them. *)
Definition CrawlSpider_process_results (response : Response) (results : Value)
  : Value := results.

Definition CrawlSpider_parse_start_url (response : Response)
    (kwargs : gmap string Value) : Value := VSeq [].

(** [CrawlSpider.__init__] for a class with the given methods and rules. *)
Definition CrawlSpider_init (methods : gmap string PyFun) (rules : list Rule)
  : CrawlSpider :=
  _compile_rules
    {| attrs := methods;
       rules := rules;
       _rules := [];
       _follow_links := None;
       process_results := CrawlSpider_process_results;
       parse_start_url := CrawlSpider_parse_start_url |}.

(** Modelled from the spec: the settings object is an external collaborator;
    the engine consumes "a single boolean option" from it through
    [getbool]. *)
Record Settings := mkSettings { getbool : string → bool }.

(** [CrawlSpider.from_crawler] *)
Definition from_crawler (settings : Settings) (spider : CrawlSpider)
  : CrawlSpider :=
  {| attrs := attrs spider;
     rules := rules spider;
     _rules := _rules spider;
     _follow_links := Some (getbool settings "CRAWLSPIDER_FOLLOW_LINKS");
     process_results := process_results spider;
     parse_start_url := parse_start_url spider |}.

(** [CrawlSpider._build_request] *)
Definition _build_request (rule_index : nat) (link : Link) : Request :=
  {| req_url := url link;
     req_callback := CrawlSpider_callback;
     req_errback := CrawlSpider_errback;
     req_meta := {[ "rule" := MInt (Z.of_nat rule_index);
                    "link_text" := MStr (text link) ]} |}.

(** Calling a rule field: anything but a callable of the right signature
    is a [TypeError]. *)
Definition call_process_links (m : option Method) (links : list Link)
  : Gen (list Link) :=
  match m with
  | Some (MCallable (FProcessLinks f)) => mret (f links)
  | _ => raise TypeError
  end.

Definition call_process_request (m : option Method) (request : Request)
    (response : Response) : Gen (option Request) :=
  match m with
  | Some (MCallable (FProcessRequest f)) => mret (f request response)
  | _ => raise TypeError
  end.

Definition call_callback (m : Method) (response : Response)
    (kwargs : gmap string Value) : Gen Value :=
  match m with
  | MCallable (FCallback f) => mret (f response kwargs)
  | _ => raise TypeError
  end.

Definition call_errback (m : Method) (failure : Failure) : Gen Value :=
  match m with
  | MCallable (FErrback f) => mret (f failure)
  | _ => raise TypeError
  end.

(** A [Request | None] as a yielded value. *)
Definition request_or_none (r : option Request) : Value :=
  match r with
  | Some request => VRequest request
  | None => VNone
  end.

(** The inner loop of [_requests_to_follow]:
    [for link in rule.process_links(links): ...], threading [seen]. *)
Fixpoint follow_links (rule_index : nat) (rule : Rule) (response : Response)
    (links : list Link) (seen : gset string) : Gen (gset string) :=
  match links with
  | [] => mret seen
  | link :: rest =>
      let seen := {[ url link ]} ∪ seen in
      let request := _build_request rule_index link in
      r ← call_process_request (process_request rule) request response;
      yield (request_or_none r);;
      follow_links rule_index rule response rest seen
  end.

(** The outer loop: [for rule_index, rule in enumerate(self._rules): ...] *)
Fixpoint follow_rules (response : Response) (rule_index : nat)
    (rules : list Rule) (seen : gset string) : Gen (gset string) :=
  match rules with
  | [] => mret seen
  | rule :: rest =>
      let links :=
        filter (λ lnk, url lnk ∉ seen)
               (extract_links (link_extractor rule) response) in
      processed ← call_process_links (process_links rule) links;
      seen ← follow_links rule_index rule response processed seen;
      follow_rules response (S rule_index) rest seen
  end.

(** [CrawlSpider._requests_to_follow] *)
Definition _requests_to_follow (self : CrawlSpider) (response : Response)
  : Gen unit :=
  if negb (resp_html response) then mret tt
  else follow_rules response 0 (_rules self) ∅;; mret tt.

(** Modelled from the spec: [scrapy.utils.spider.iterate_spider_output] is
    not part of the sources. The specification gives its semantics: "a
    returned null/empty result normalizes to an empty sequence. Each
    produced element that is itself a nested lazy sequence or generator
    must be flattened one level: scalar outputs pass through untouched,
    iterable outputs are expanded element-by-element, in source order."
    The helper is used synchronously ([for ... in], [yield from]), so an
    awaitable or an asynchronous iterator handed to it is not an iterable:
    it is a scalar. *)
Definition flatten_element (element : Value) : list Value :=
  match element with
  | VSeq nested => nested
  | scalar => [scalar]
  end.

Definition iterate_spider_output (result : Value) : list Value :=
  match result with
  | VNone => []
  | VSeq l => l ≫= flatten_element
  | scalar => [scalar]
  end.

(** [self._rules[i]], with Python's negative indices. *)
Definition py_index {A} (l : list A) (i : Z) : option A :=
  if decide (0 ≤ i)%Z then l !! Z.to_nat i
  else if decide (0 ≤ Z.of_nat (length l) + i)%Z
       then l !! Z.to_nat (Z.of_nat (length l) + i)
       else None.

(** [self._rules[meta["rule"]]] *)
Definition rule_of_meta (self : CrawlSpider) (meta : gmap string MetaVal)
  : Gen Rule :=
  match meta !! "rule" with
  | None => raise KeyError
  | Some (MStr _) => raise TypeError
  | Some (MInt i) =>
      match py_index (_rules self) i with
      | Some rule => mret rule
      | None => raise IndexError
      end
  end.

(** The [isinstance] cascade of [parse_with_rules]: an asynchronous
    iterator is collected, an awaitable is awaited. *)
Definition await_result (cb_res : Value) : Value :=
  match cb_res with
  | VAsyncIter produced => VSeq produced
  | VAwaitable result => result
  | plain => plain
  end.

(** The first block of [parse_with_rules]: [if callback: ...] *)
Definition callback_output (self : CrawlSpider) (response : Response)
    (callback : option Method) (cb_kwargs : gmap string Value) : Gen unit :=
  match callback with
  | Some m =>
      if given callback then
        cb_res ← call_callback m response cb_kwargs;
        let cb_res := or_empty cb_res in
        let cb_res := await_result cb_res in
        let cb_res := process_results self response cb_res in
        yield_from (iterate_spider_output cb_res)
      else mret tt
  | None => mret tt
  end.

(** [follow and self._follow_links] *)
Definition follow_enabled (self : CrawlSpider) (follow : bool) : Gen bool :=
  if follow then
    match _follow_links self with
    | Some b => mret b
    | None => raise AttributeError
    end
  else mret false.

(** [CrawlSpider.parse_with_rules] *)
Definition parse_with_rules (self : CrawlSpider) (response : Response)
    (callback : option Method) (cb_kwargs : gmap string Value)
    (follow : bool) : Gen unit :=
  callback_output self response callback cb_kwargs;;
  follow_enabled self follow ≫= λ enabled : bool,
  if enabled then _requests_to_follow self response else mret tt.

(** [CrawlSpider._parse] *)
Definition _parse (self : CrawlSpider) (response : Response)
    (kwargs : gmap string Value) : Gen unit :=
  parse_with_rules self response
    (Some (MCallable (FCallback (parse_start_url self)))) kwargs true.

(** [CrawlSpider._callback]; [{**rule.cb_kwargs, **cb_kwargs}] lets the
    keys of [cb_kwargs] win. *)
Definition _callback (self : CrawlSpider) (response : Response)
    (kwargs : gmap string Value) : Gen unit :=
  rule ← rule_of_meta self (resp_meta response);
  parse_with_rules self response (callback rule)
    (kwargs ∪ cb_kwargs rule) (follow rule).

(** [CrawlSpider._handle_failure] *)
Definition _handle_failure (self : CrawlSpider) (failure : Failure)
    (errback : option Method) : Gen unit :=
  match errback with
  | Some m =>
      if given errback then
        results ← call_errback m failure;
        let results := or_empty results in
        yield_from (iterate_spider_output results)
      else mret tt
  | None => mret tt
  end.

(** [CrawlSpider._errback] *)
Definition _errback (self : CrawlSpider) (failure : Failure) : Gen unit :=
  rule ← rule_of_meta self (req_meta (fail_request failure));
  _handle_failure self failure (errback rule).

(** ** Sample page and spiders *)

Definition lnk_item : Link := mkLink "http://example.org/item/12.html" "Item 12".
Definition lnk_about : Link := mkLink "http://example.org/about.html" "About us".
Definition lnk_nofollow : Link :=
  mkLink "http://example.org/nofollow.html" "This shouldn't be followed".

Definition html_page : Response :=
  mkResponse "http://example.org/somepage/index.html" true
             [lnk_item; lnk_about; lnk_nofollow] ∅.

Definition text_page : Response :=
  mkResponse "http://example.org/somepage/index.html" false
             [lnk_item; lnk_about; lnk_nofollow] ∅.

(** The option as the default settings have it, and switched off. *)
Definition default_settings : Settings := mkSettings (λ _, true).
Definition no_follow_settings : Settings :=
  mkSettings (λ name, negb (String.eqb name "CRAWLSPIDER_FOLLOW_LINKS")).

Definition default_rule : Rule :=
  Rule_init None None None None None None None.

(** [rules = (Rule(),)] *)
Definition spider_one_rule : CrawlSpider :=
  from_crawler default_settings (CrawlSpider_init ∅ [default_rule]).

(** Two catch-all rules; the first one's link filter drops every link. *)
Definition drop_all (links : list Link) : list Link := [].

Definition spider_first_drops : CrawlSpider :=
  from_crawler default_settings
    (CrawlSpider_init ∅
       [Rule_init None None None None
                  (Some (MCallable (FProcessLinks drop_all))) None None;
        default_rule]).

(** One catch-all rule whose request filter returns [None] for every link. *)
Definition suppress (request : Request) (response : Response)
  : option Request := None.

Definition spider_suppress : CrawlSpider :=
  from_crawler default_settings
    (CrawlSpider_init ∅
       [Rule_init None None None None None
                  (Some (MCallable (FProcessRequest suppress))) None]).

(** Rules naming methods the spider does not have. *)
Definition spider_missing_process_links : CrawlSpider :=
  from_crawler default_settings
    (CrawlSpider_init ∅
       [Rule_init None None None None (Some (MName "no_such_method")) None
                  None]).

Definition spider_missing_process_request : CrawlSpider :=
  from_crawler default_settings
    (CrawlSpider_init ∅
       [Rule_init None None None None None (Some (MName "no_such_method"))
                  None]).

Definition spider_missing_callbacks : CrawlSpider :=
  from_crawler default_settings
    (CrawlSpider_init ∅
       [Rule_init None (Some (MName "no_such_method")) None (Some true) None
                  None (Some (MName "no_such_method"))]).

(** Items and a callback returning them in each of the three shapes. *)
Definition item_a : Value := VItem [("name", "a")].
Definition item_b : Value := VItem [("name", "b")].

Definition parse_page (response : Response) (kwargs : gmap string Value)
  : Value := VSeq [item_a; item_b].

Definition parse_page_awaitable (response : Response)
    (kwargs : gmap string Value) : Value := VAwaitable (VSeq [item_a; item_b]).

Definition parse_nested (response : Response) (kwargs : gmap string Value)
  : Value := VSeq [VSeq [item_a; item_b]; item_a; VSeq []; VNone].

Definition on_error_awaitable (failure : Failure) : Value :=
  VAwaitable (VSeq [item_a; item_b]).

Definition on_error_plain (failure : Failure) : Value :=
  VSeq [item_a; item_b].

(** A spider whose only rule has a callback and an error callback. *)
Definition spider_with_handlers (cb : PyFun) (eb : PyFun) : CrawlSpider :=
  from_crawler default_settings
    (CrawlSpider_init ∅
       [Rule_init None (Some (MCallable cb)) None (Some true) None None
                  (Some (MCallable eb))]).

(** A page with two links, and the failure of a request of rule 0. *)
Definition two_link_page : Response :=
  mkResponse "http://example.org/" true [lnk_item; lnk_about]
             {[ "rule" := MInt 0 ]}.

Definition failure_rule0 : Failure :=
  mkFailure (_build_request 0 lnk_item) "timeout".

(** The urls of the requests among yielded values. *)
Definition request_urls (outs : list Value) : list string :=
  omap (λ v, match v with VRequest q => Some (req_url q) | _ => None end) outs.

(** ** Definitions used by the statements *)

Abbreviation links_callable f := (Some (MCallable (FProcessLinks f))).
Abbreviation request_callable g := (Some (MCallable (FProcessRequest g))).

(** What one rule yields for the links its filter returned. *)
Definition rule_requests (rule_index : nat)
    (g : Request → Response → option Request) (response : Response)
    (links : list Link) : list Value :=
  (λ link, request_or_none (g (_build_request rule_index link) response))
    <$> links.

(** A rule whose filters are callable and whose link filter never returns
    a link with url [u]. *)
Definition drops_url (u : string) (rule : Rule) : Prop :=
  ∃ f g, process_links rule = links_callable f
       ∧ process_request rule = request_callable g
       ∧ ∀ links, u ∉ url <$> f links.

(** The reading of "dropped silently": only requests are yielded. *)
Definition only_requests_yielded (self : CrawlSpider) (response : Response)
  : Prop :=
  ∀ v, v ∈ yielded (_requests_to_follow self response) → ∃ q, v = VRequest q.

(** A link filter that tests links one by one and returns the ones it
    keeps, in order. *)
Definition pointwise_filter (f : list Link → list Link) : Prop :=
  ∃ keep : Link → bool,
    ∀ links, f links = filter (λ lnk, keep lnk = true) links.

(** A request filter that returns [None] or a request with the url and the
    rule index of the one it was given. *)
Definition routing_preserved (g : Request → Response → option Request)
    (response : Response) : Prop :=
  ∀ request request',
    g request response = Some request' →
    req_url request' = req_url request
    ∧ req_meta request' !! "rule" = req_meta request !! "rule".

Definition well_behaved (response : Response) (rule : Rule) : Prop :=
  NoDup (url <$> extract_links (link_extractor rule) response)
  ∧ (∃ f, process_links rule = links_callable f ∧ pointwise_filter f)
  ∧ (∃ g, process_request rule = request_callable g
          ∧ routing_preserved g response).

(** The extractor of [rule] produces a link with url [u]. *)
Definition extracts (response : Response) (u : string) (rule : Rule) : Prop :=
  u ∈ url <$> extract_links (link_extractor rule) response.

(** The extractor of [rule] produces a link with url [u] and the link
    filter of [rule] keeps it. *)
Definition keeps (response : Response) (u : string) (rule : Rule) : Prop :=
  ∃ f, process_links rule = links_callable f
       ∧ u ∈ url <$> f (extract_links (link_extractor rule) response).

(** [i] is the lowest index of a rule with property [P]. *)
Definition lowest_index (P : Rule → Prop) (rules : list Rule) (i : nat)
  : Prop :=
  (∃ rule, rules !! i = Some rule ∧ P rule)
  ∧ ∀ j rule, j < i → rules !! j = Some rule → ¬ P rule.

(** The routing metadata of [q] names rule [i]. *)
Definition rule_index_of (q : Request) (i : nat) : Prop :=
  req_meta q !! "rule" = Some (MInt (Z.of_nat i)).

(** Every url is requested at most once, by the lowest-indexed rule with
    property [P] of that url. *)
Definition once_by_lowest (P : Response → string → Rule → Prop)
    (self : CrawlSpider) (response : Response) : Prop :=
  NoDup (request_urls (yielded (_requests_to_follow self response)))
  ∧ ∀ q, VRequest q ∈ yielded (_requests_to_follow self response) →
      ∃ i, rule_index_of q i
           ∧ lowest_index (P response (req_url q)) (_rules self) i.

(** A request filter that returns [None] or a request with the rule index
    of the one it was given; it may change everything else, the url too. *)
Definition rule_index_preserved (g : Request → Response → option Request)
    (response : Response) : Prop :=
  ∀ request request',
    g request response = Some request' →
    req_meta request' !! "rule" = req_meta request !! "rule".

(** A request filter that rewrites the url and adds a key to the meta. *)
Definition rewrite_url (request : Request) (response : Response)
  : option Request :=
  Some {| req_url := req_url request +:+ "?from=" +:+ resp_url response;
          req_callback := req_callback request;
          req_errback := req_errback request;
          req_meta := <[ "response_class" := MStr "HtmlResponse" ]>
                        (req_meta request) |}.

Definition spider_rewrite : CrawlSpider :=
  from_crawler default_settings
    (CrawlSpider_init ∅
       [Rule_init None None None None None
                  (Some (MCallable (FProcessRequest rewrite_url))) None]).

(** ** Generator laws *)

Section GenLaws.
Context {A B : Type}.
Implicit Types (k : A → Gen B).

Lemma Gen_bind_ret a k : mret a ≫= k = k a.
Proof. unfold mbind, mret, Gen_bind, Gen_ret. by destruct (k a). Qed.

Lemma Gen_bind_raise e k : raise e ≫= k = raise e.
Proof. done. Qed.

Lemma Gen_bind_ok out a k :
  ((out, inr a) : Gen A) ≫= k = (out ++ (k a).1, (k a).2).
Proof. unfold mbind, Gen_bind. by destruct (k a). Qed.

Lemma Gen_bind_err out e k :
  ((out, inl e) : Gen A) ≫= k = (out, inl e).
Proof. done. Qed.
End GenLaws.

Lemma Gen_bind_unit (m : Gen unit) : (m ≫= λ _, mret tt) = m.
Proof.
  destruct m as [out [e|[]]]; [done|].
  rewrite Gen_bind_ok. simpl. by rewrite app_nil_r.
Qed.

Lemma yielded_bind_ok {A B} out a (k : A → Gen B) :
  yielded (((out, inr a) : Gen A) ≫= k) = out ++ yielded (k a).
Proof. by rewrite Gen_bind_ok. Qed.

Lemma yielded_bind_prefix {A B} (m : Gen A) (k : A → Gen B) :
  yielded m `prefix_of` yielded (m ≫= k).
Proof.
  destruct m as [out [e|a]].
  - by rewrite Gen_bind_err.
  - rewrite yielded_bind_ok. by apply prefix_app_r.
Qed.

Lemma Gen_yield_bind {B} v (m : Gen B) : (yield v;; m) = (v :: m.1, m.2).
Proof. unfold yield. by rewrite Gen_bind_ok. Qed.

(** ** The link-following loops *)

Lemma follow_links_cons rule_index rule response link rest seen :
  follow_links rule_index rule response (link :: rest) seen
  = (r ← call_process_request (process_request rule)
           (_build_request rule_index link) response;
     yield (request_or_none r);;
     follow_links rule_index rule response rest ({[ url link ]} ∪ seen)).
Proof. done. Qed.

Lemma follow_rules_nil response rule_index seen :
  follow_rules response rule_index [] seen = mret seen.
Proof. done. Qed.

Lemma follow_rules_step response rule_index rule rest seen :
  follow_rules response rule_index (rule :: rest) seen
  = (processed ← call_process_links (process_links rule)
        (filter (λ lnk, url lnk ∉ seen)
                (extract_links (link_extractor rule) response));
     follow_links rule_index rule response processed seen ≫=
     follow_rules response (S rule_index) rest).
Proof. done. Qed.

Lemma follow_links_run rule_index rule response g links seen :
  process_request rule = request_callable g →
  follow_links rule_index rule response links seen
  = (rule_requests rule_index g response links,
     inr (list_to_set (url <$> links) ∪ seen)).
Proof.
  intros Hg. revert seen.
  induction links as [|link rest IH]; intros seen.
  - simpl. unfold mret, Gen_ret. f_equal. f_equal. set_solver.
  - rewrite follow_links_cons, Hg. unfold call_process_request.
    rewrite Gen_bind_ret, Gen_yield_bind, IH. simpl.
    f_equal. f_equal. set_solver.
Qed.

Lemma follow_rules_cons response rule_index rule rest seen f g :
  process_links rule = links_callable f →
  process_request rule = request_callable g →
  let processed :=
    f (filter (λ lnk, url lnk ∉ seen)
              (extract_links (link_extractor rule) response)) in
  follow_rules response rule_index (rule :: rest) seen
  = (((rule_requests rule_index g response processed, inr tt) : Gen unit);;
     follow_rules response (S rule_index) rest
       (list_to_set (url <$> processed) ∪ seen)).
Proof.
  intros Hf Hg processed. rewrite follow_rules_step, Hf.
  unfold call_process_links. rewrite Gen_bind_ret. fold processed.
  rewrite (follow_links_run _ _ _ g) by done.
  by rewrite !Gen_bind_ok.
Qed.

Lemma follow_rules_app response rule_index pre post seen :
  follow_rules response rule_index (pre ++ post) seen
  = follow_rules response rule_index pre seen ≫=
      follow_rules response (rule_index + length pre) post.
Proof.
  revert rule_index seen.
  induction pre as [|rule pre IH]; intros rule_index seen.
  - rewrite app_nil_l, follow_rules_nil, Gen_bind_ret.
    by rewrite Nat.add_0_r.
  - rewrite <- app_comm_cons, !follow_rules_step.
    destruct (call_process_links _ _) as [o1 [e|processed]]; [done|].
    rewrite !Gen_bind_ok.
    destruct (follow_links _ _ _ _ _) as [o2 [e|seen1]]; [done|].
    rewrite !Gen_bind_ok. rewrite IH.
    replace (S rule_index + length pre) with (rule_index + S (length pre)) by lia.
    destruct (follow_rules response (S rule_index) pre seen1)
      as [o3 [e|seen2]]; simpl.
    + by rewrite !Gen_bind_err.
    + rewrite !Gen_bind_ok. simpl. by rewrite !app_assoc.
Qed.

Lemma requests_to_follow_html self response :
  resp_html response = true →
  _requests_to_follow self response
  = (follow_rules response 0 (_rules self) ∅;; mret tt).
Proof. intros H. unfold _requests_to_follow. by rewrite H. Qed.

(** ** The callback block *)

Lemma callback_output_callable self response f kw :
  callback_output self response (Some (MCallable (FCallback f))) kw
  = (iterate_spider_output
       (process_results self response
          (await_result (or_empty (f response kw)))), inr tt).
Proof.
  unfold callback_output, given, call_callback. by rewrite Gen_bind_ret.
Qed.

Lemma callback_output_absent self response kw :
  callback_output self response None kw = ([], inr tt).
Proof. done. Qed.

(** ** Non-HTML responses *)

(** C7. For every response that is not an [HtmlResponse],
    [_requests_to_follow] yields nothing and raises nothing, whatever the
    rule table holds. *)
Theorem requests_to_follow_non_html (self : CrawlSpider) (response : Response) :
  resp_html response = false →
  _requests_to_follow self response = ([], inr tt).
Proof. intros H. unfold _requests_to_follow. by rewrite H. Qed.

Lemma requests_to_follow_non_html_witness :
  _requests_to_follow spider_missing_process_links text_page = ([], inr tt).
Proof. apply requests_to_follow_non_html. reflexivity. Defined.

(** ** Default of the follow flag *)

(** C6. A rule built with [follow] unset follows exactly when no callback
    was given: [callback] is [None] (or the empty name, which
    [not callback] does not tell from [None]). *)
Theorem Rule_follow_default le (cb : option Method) kw pl pr eb :
  follow (Rule_init le cb kw None pl pr eb) = true
  ↔ cb = None ∨ cb = Some (MName "").
Proof.
  simpl. destruct cb as [[f|name]|]; simpl.
  - split; [done|]. intros [|]; done.
  - destruct name as [|c name]; simpl.
    + split; [by right|done].
    + split; [done|]. intros [|]; done.
  - split; [by left|done].
Qed.

(** ** The instance-wide follow setting *)

(** C8. With [CRAWLSPIDER_FOLLOW_LINKS] off, [parse_with_rules] yields what
    the callback block yields and nothing else, whatever [follow] it is
    given; a bound callback [f] still runs and its normalized output is
    emitted. *)
Theorem follow_links_disabled (settings : Settings) (spider : CrawlSpider)
    (response : Response) (cb : option Method) (kw : gmap string Value)
    (follow : bool) :
  getbool settings "CRAWLSPIDER_FOLLOW_LINKS" = false →
  let self := from_crawler settings spider in
  parse_with_rules self response cb kw follow
  = callback_output self response cb kw
  ∧ ∀ f, cb = Some (MCallable (FCallback f)) →
      parse_with_rules self response cb kw follow
      = (iterate_spider_output
           (process_results self response
              (await_result (or_empty (f response kw)))), inr tt).
Proof.
  intros Hoff self.
  assert (parse_with_rules self response cb kw follow
          = callback_output self response cb kw) as Heq.
  { unfold parse_with_rules, follow_enabled. simpl. rewrite Hoff.
    destruct follow; rewrite Gen_bind_ret; apply Gen_bind_unit. }
  split; [done|]. intros f ->. rewrite Heq.
  apply callback_output_callable.
Qed.

Lemma follow_links_disabled_witness :
  parse_with_rules
    (from_crawler no_follow_settings (CrawlSpider_init ∅ [default_rule]))
    html_page (Some (MCallable (FCallback parse_page))) ∅ true
  = ([item_a; item_b], inr tt).
Proof.
  refine (proj2 (follow_links_disabled no_follow_settings
                   (CrawlSpider_init ∅ [default_rule]) html_page _ ∅ true _)
                parse_page _); reflexivity.
Defined.

(** ** Emission order *)

(** C2. When the traversal with following switched off yields [items] (the
    callback's normalized outputs) and [_requests_to_follow] yields [reqs],
    the traversal with following on yields exactly [items ++ reqs]. *)
Theorem parse_with_rules_order (self : CrawlSpider) (response : Response)
    (cb : option Method) (kw : gmap string Value)
    (items reqs : list Value) (result : Exn + unit) :
  parse_with_rules self response cb kw false = (items, inr tt) →
  _follow_links self = Some true →
  _requests_to_follow self response = (reqs, result) →
  parse_with_rules self response cb kw true = (items ++ reqs, result).
Proof.
  unfold parse_with_rules, follow_enabled. intros Hcb -> Hreqs.
  rewrite Gen_bind_ret in Hcb. rewrite Gen_bind_unit in Hcb.
  rewrite Hcb, Gen_bind_ok, Gen_bind_ret, Hreqs. done.
Qed.

(** A callback returning [a, b] on a page with follow-links [c, d]. *)
Lemma parse_with_rules_order_witness :
  parse_with_rules spider_one_rule two_link_page
    (Some (MCallable (FCallback parse_page))) ∅ true
  = ([item_a; item_b] ++
     [VRequest (_build_request 0 lnk_item);
      VRequest (_build_request 0 lnk_about)], inr tt).
Proof.
  apply parse_with_rules_order; reflexivity.
Defined.

(** ** Normalization of callback output *)

Lemma expand_scalars (l : list Value) :
  Forall (λ element, ∀ nested, element ≠ VSeq nested) l →
  (l ≫= λ element,
          match element with
          | VSeq nested => nested
          | scalar => [scalar]
          end) = l.
Proof.
  induction 1 as [|element l Hscalar _ IH]; [done|].
  rewrite bind_cons, IH.
  destruct element as [| | |nested| |]; try done. by destruct (Hscalar nested).
Qed.

(** C5. With the hook [process_results] as [CrawlSpider] defines it, every
    callback invocation ends normally and:
    - a callback returning [None] or any other empty (falsy) result yields
      nothing, and so does one returning an awaitable of [None];
    - a callback returning a sequence [l], as a plain iterable, as an
      asynchronous iterator or as an awaitable of it, yields the elements
      of [l] in order, each nested sequence expanded one level and each
      scalar unchanged: a sequence of scalars is yielded as it is, and the
      elements of a nested sequence are not expanded again;
    - a callback returning a single non-empty item or a request, directly
      or as an awaitable, yields that value. *)
Theorem callback_output_normalized (self : CrawlSpider) (response : Response)
    (f : Response → gmap string Value → Value) (kw : gmap string Value) :
  process_results self = CrawlSpider_process_results →
  let run := parse_with_rules self response
               (Some (MCallable (FCallback f))) kw false in
  let returned := f response kw in
  let expand := λ element,
                  match element with
                  | VSeq nested => nested
                  | scalar => [scalar]
                  end in
  outcome run = inr tt
  ∧ (truthy returned = false ∨ returned = VAwaitable VNone →
     yielded run = [])
  ∧ (∀ l, returned = VSeq l ∨ returned = VAsyncIter l
          ∨ returned = VAwaitable (VSeq l) →
       yielded run = l ≫= expand
       ∧ (Forall (λ element, ∀ nested, element ≠ VSeq nested) l →
          yielded run = l)
       ∧ (∀ nested, l = [VSeq nested] → yielded run = nested))
  ∧ (∀ v, (∃ fields, v = VItem fields) ∨ (∃ q, v = VRequest q) →
          (returned = v ∧ truthy v = true) ∨ returned = VAwaitable v →
       yielded run = [v]).
Proof.
  intros Hhook run returned expand.
  assert (run = (iterate_spider_output (await_result (or_empty returned)),
                 inr tt)) as ->.
  { unfold run, parse_with_rules, follow_enabled.
    rewrite Gen_bind_ret, Gen_bind_unit, callback_output_callable, Hhook.
    done. }
  unfold yielded, outcome. simpl.
  split; [done|]. split; [|split].
  - intros [Hfalsy | ->]; [|done].
    unfold or_empty. by rewrite Hfalsy.
  - intros l Hshape.
    assert (iterate_spider_output (await_result (or_empty returned))
            = l ≫= expand) as Heq.
    { destruct Hshape as [-> | [-> | ->]]; try done. by destruct l. }
    rewrite Heq. split; [done|]. split.
    + apply expand_scalars.
    + intros nested ->. simpl. by rewrite app_nil_r.
  - intros v Hscalar [[-> Htrue] | ->].
    + unfold or_empty. rewrite Htrue.
      by destruct Hscalar as [[fields ->] | [q ->]].
    + by destruct Hscalar as [[fields ->] | [q ->]].
Qed.

Lemma callback_output_normalized_witness :
  yielded (parse_with_rules spider_one_rule text_page
             (Some (MCallable (FCallback parse_nested))) ∅ false)
  = [item_a; item_b; item_a; VNone].
Proof.
  exact (eq_trans
           (proj1 (proj1 (proj2 (proj2
              (callback_output_normalized spider_one_rule text_page
                 parse_nested ∅ eq_refl))) _ (or_introl eq_refl)))
           eq_refl).
Defined.

(** The same items returned as an awaitable, and an empty item. *)
Lemma callback_output_awaited_example :
  yielded (parse_with_rules spider_one_rule text_page
             (Some (MCallable (FCallback parse_page_awaitable))) ∅ false)
  = [item_a; item_b]
  ∧ yielded (parse_with_rules spider_one_rule text_page
               (Some (MCallable (FCallback (λ _ _, VItem [])))) ∅ false)
    = [].
Proof. split; reflexivity. Qed.

(** ** Links removed by a link filter are not marked seen *)

Lemma follow_rules_drops response u pre rule_index seen :
  Forall (drops_url u) pre →
  u ∉ seen →
  ∃ outs seen',
    follow_rules response rule_index pre seen = (outs, inr seen')
    ∧ u ∉ seen'.
Proof.
  intros Hpre. revert rule_index seen.
  induction Hpre as [|rule pre (f & g & Hf & Hg & Hdrop) _ IH];
    intros rule_index seen Hu.
  - by exists [], seen.
  - rewrite (follow_rules_cons _ _ _ _ _ f g) by done.
    set (processed := f _).
    destruct (IH (S rule_index) (list_to_set (url <$> processed) ∪ seen))
      as (outs & seen' & Hrun & Hu').
    { specialize (Hdrop (filter (λ lnk, url lnk ∉ seen)
                           (extract_links (link_extractor rule) response))).
      fold processed in Hdrop. set_solver. }
    rewrite Hrun, Gen_bind_ok. simpl. eauto.
Qed.

(** C10. A url is marked seen only for links a link filter returned: when
    the link filters of all rules before rule [j] remove the url of [link],
    the url is not in the seen-set when rule [j] runs, and rule [j], whose
    extractor produces [link] and whose filters keep it, yields the request
    for it. *)
Theorem filtered_link_not_seen (self : CrawlSpider) (response : Response)
    (pre post : list Rule) (rule : Rule) (link : Link)
    (f : list Link → list Link) (g : Request → Response → option Request) :
  resp_html response = true →
  _rules self = pre ++ rule :: post →
  Forall (drops_url (url link)) pre →
  process_links rule = links_callable f →
  (∀ links, link ∈ links → link ∈ f links) →
  process_request rule = request_callable g →
  g (_build_request (length pre) link) response
    = Some (_build_request (length pre) link) →
  link ∈ extract_links (link_extractor rule) response →
  (∃ outs seen, follow_rules response 0 pre ∅ = (outs, inr seen)
                ∧ url link ∉ seen)
  ∧ VRequest (_build_request (length pre) link)
      ∈ yielded (_requests_to_follow self response).
Proof.
  intros Hhtml Hrules Hpre Hf Hkeep Hg Hsame Hlink.
  destruct (follow_rules_drops response (url link) pre 0 ∅ Hpre)
    as (outs & seen & Hrun & Hseen); [set_solver|].
  split; [by eauto|].
  rewrite requests_to_follow_html, Hrules, follow_rules_app by done.
  eapply elem_of_prefix; [|apply yielded_bind_prefix].
  rewrite Hrun, yielded_bind_ok.
  rewrite (follow_rules_cons _ _ _ _ _ f g) by done.
  apply elem_of_app. right.
  eapply elem_of_prefix; [|apply yielded_bind_prefix].
  unfold yielded, rule_requests. simpl.
  apply list_elem_of_fmap.
  exists link. rewrite Hsame. split; [done|].
  apply Hkeep, list_elem_of_filter. done.
Qed.

Lemma filtered_link_not_seen_witness :
  VRequest (_build_request 1 lnk_about)
    ∈ yielded (_requests_to_follow spider_first_drops html_page).
Proof.
  refine (proj2 (filtered_link_not_seen spider_first_drops html_page
            [Rule_init None None None None
               (Some (MCallable (FProcessLinks drop_all))) None None]
            [] default_rule lnk_about _identity _identity_process_request
            eq_refl eq_refl _ eq_refl _ eq_refl eq_refl _)).
  - constructor; [|constructor].
    exists drop_all, _identity_process_request.
    split; [reflexivity|]. split; [reflexivity|].
    intros links. unfold drop_all. simpl. apply not_elem_of_nil.
  - intros links Hin. exact Hin.
  - apply list_elem_of_In. simpl. tauto.
Defined.

(** ** Null results of a request filter *)

(** A request filter that returns [None] for every link: three [None]s are
    yielded for the three links of the page. *)
Lemma null_request_not_dropped :
  _requests_to_follow spider_suppress html_page = ([VNone; VNone; VNone], inr tt)
  ∧ yielded (parse_with_rules spider_suppress html_page None ∅ true)
    = [VNone; VNone; VNone]
  ∧ ¬ only_requests_yielded spider_suppress html_page.
Proof.
  assert (_requests_to_follow spider_suppress html_page
          = ([VNone; VNone; VNone], inr tt)) as Hrun by reflexivity.
  split; [done|]. split; [reflexivity|].
  intros Hdrop. destruct (Hdrop VNone) as [q Hq]; [|done].
  rewrite Hrun. apply list_elem_of_here.
Qed.

(** C3, amended. When the request filter of a rule returns [None] for a
    link, no request is yielded for that link and nothing is raised, but the
    [None] itself is yielded in the link's place by [_requests_to_follow],
    and [parse_with_rules] passes on what [_requests_to_follow] yields. *)
Theorem null_request_yielded (self : CrawlSpider) (response : Response)
    (pre post : list Rule) (rule : Rule)
    (f : list Link → list Link) (g : Request → Response → option Request)
    (outs : list Value) (seen : gset string) (n : nat) (link : Link) :
  resp_html response = true →
  _rules self = pre ++ rule :: post →
  follow_rules response 0 pre ∅ = (outs, inr seen) →
  process_links rule = links_callable f →
  process_request rule = request_callable g →
  f (filter (λ lnk, url lnk ∉ seen)
            (extract_links (link_extractor rule) response)) !! n = Some link →
  g (_build_request (length pre) link) response = None →
  yielded (_requests_to_follow self response) !! (length outs + n) = Some VNone
  ∧ (∃ seen', outcome (follow_rules response 0 (pre ++ [rule]) ∅) = inr seen')
  ∧ (_follow_links self = Some true →
     ∀ kw, parse_with_rules self response None kw true
           = _requests_to_follow self response).
Proof.
  intros Hhtml Hrules Hrun Hf Hg Hn Hnone. split; [|split].
  - rewrite requests_to_follow_html, Hrules, follow_rules_app by done.
    eapply prefix_lookup_Some; [|apply yielded_bind_prefix].
    rewrite Hrun, yielded_bind_ok.
    rewrite (follow_rules_cons _ _ _ _ _ f g) by done.
    rewrite lookup_app_r by lia.
    replace (length outs + n - length outs) with n by lia.
    eapply prefix_lookup_Some; [|apply yielded_bind_prefix].
    unfold yielded, rule_requests. simpl.
    rewrite list_lookup_fmap, Hn. simpl. by rewrite Hnone.
  - rewrite follow_rules_app, Hrun, Gen_bind_ok.
    rewrite (follow_rules_cons _ _ _ _ _ f g) by done.
    rewrite Gen_bind_ok, follow_rules_nil. simpl. eauto.
  - intros Hfollow kw. unfold parse_with_rules, follow_enabled.
    rewrite Hfollow, callback_output_absent, Gen_bind_ret.
    apply (Gen_bind_ret tt).
Qed.

Lemma null_request_yielded_witness :
  yielded (_requests_to_follow spider_suppress html_page) !! (0 + 1)
  = Some VNone.
Proof.
  refine (proj1 (null_request_yielded spider_suppress html_page [] []
            _ _identity suppress [] ∅ 1 lnk_about
            eq_refl eq_refl eq_refl eq_refl eq_refl eq_refl eq_refl)).
Defined.

(** ** Deduplication across rules *)

Lemma rule_index_of_build rule_index link :
  rule_index_of (_build_request rule_index link) rule_index.
Proof. unfold rule_index_of, _build_request. simpl. by simplify_map_eq. Qed.

Lemma request_urls_app l k :
  request_urls (l ++ k) = request_urls l ++ request_urls k.
Proof. apply omap_app. Qed.

Lemma elem_of_request_urls u outs :
  u ∈ request_urls outs ↔ ∃ q, VRequest q ∈ outs ∧ req_url q = u.
Proof.
  unfold request_urls. rewrite list_elem_of_omap. split.
  - intros ([] & Hin & Heq); simplify_eq. eauto.
  - intros (q & Hin & <-). eauto.
Qed.

Section RuleRequests.
Context (rule_index : nat) (g : Request → Response → option Request)
        (response : Response).
Hypothesis Hg : routing_preserved g response.

Lemma request_urls_rule_requests links :
  request_urls (rule_requests rule_index g response links)
  `sublist_of` (url <$> links).
Proof.
  induction links as [|link rest IH]; [constructor|].
  unfold request_urls, rule_requests in *. simpl.
  destruct (g (_build_request rule_index link) response) as [q|] eqn:Hq;
    simpl.
  - destruct (Hg _ _ Hq) as [-> _]. simpl. by constructor.
  - by constructor.
Qed.

Lemma elem_of_rule_requests q links :
  VRequest q ∈ rule_requests rule_index g response links →
  rule_index_of q rule_index ∧ ∃ link, link ∈ links ∧ url link = req_url q.
Proof.
  unfold rule_requests. rewrite list_elem_of_fmap.
  intros (link & Heq & Hin).
  destruct (g (_build_request rule_index link) response) as [q'|] eqn:Hq;
    simplify_eq/=.
  destruct (Hg _ _ Hq) as [Hurl Hrule]. split.
  - unfold rule_index_of. rewrite Hrule. apply rule_index_of_build.
  - exists link. by rewrite Hurl.
Qed.
End RuleRequests.

Lemma lowest_index_here (P : Rule → Prop) rule rest :
  P rule → lowest_index P (rule :: rest) 0.
Proof. intros HP. split; [by exists rule|]. intros j ? Hj. lia. Qed.

Lemma lowest_index_later (P : Rule → Prop) rule rest j :
  ¬ P rule → lowest_index P rest j → lowest_index P (rule :: rest) (S j).
Proof.
  intros HP [Hat Hbelow]. split; [done|].
  intros [|j'] rule' Hlt Hlookup; simplify_eq/=; [done|].
  eapply Hbelow; [|done]. lia.
Qed.

(** One pass over the rule table: what is yielded, and the seen-set. *)
Lemma follow_rules_well_behaved response rules rule_index seen :
  Forall (well_behaved response) rules →
  ∃ outs seen',
    follow_rules response rule_index rules seen = (outs, inr seen')
    ∧ seen ⊆ seen'
    ∧ NoDup (request_urls outs)
    ∧ (∀ u, u ∈ request_urls outs → (u ∉ seen) ∧ u ∈ seen')
    ∧ (∀ rule u, rule ∈ rules → keeps response u rule → u ∈ seen')
    ∧ (∀ q, VRequest q ∈ outs →
         ∃ j, rule_index_of q (rule_index + j)
              ∧ lowest_index (keeps response (req_url q)) rules j).
Proof.
  intros Hwb. revert rule_index seen.
  induction Hwb as [|rule rest (Hnodup & (f & Hf & keep & Hkeep)
                                       & (g & Hg & Hroute)) _ IH];
    intros rule_index seen.
  { exists [], seen. rewrite follow_rules_nil.
    repeat split; try done; try constructor; set_solver. }
  rewrite (follow_rules_cons _ _ _ _ _ f g) by done.
  set (extracted := extract_links (link_extractor rule) response) in *.
  set (processed := f (filter (λ lnk, url lnk ∉ seen) extracted)).
  destruct (IH (S rule_index) (list_to_set (url <$> processed) ∪ seen))
    as (outs & seen' & Hrun & Hsub & Houts & Hfresh & Hkept & Hattr).
  rewrite Hrun, Gen_bind_ok. simpl.
  assert (∀ link, link ∈ processed ↔
            link ∈ extracted ∧ keep link = true ∧ url link ∉ seen) as Hproc.
  { intros link. unfold processed.
    rewrite Hkeep, !list_elem_of_filter. tauto. }
  assert (∀ u, keeps response u rule →
            u ∈ (list_to_set (url <$> processed) ∪ seen : gset string))
    as Hhere.
  { intros u (f' & Hf' & Hu). rewrite Hf in Hf'. simplify_eq.
    fold extracted in Hu. rewrite Hkeep in Hu.
    apply list_elem_of_fmap in Hu as (link & -> & Hlink).
    apply list_elem_of_filter in Hlink as [Hk Hin].
    destruct (decide (url link ∈ seen)) as [|Hnot]; [set_solver|].
    apply elem_of_union. left. apply elem_of_list_to_set.
    apply list_elem_of_fmap_2, Hproc. done. }
  assert (∀ link, link ∈ processed → keeps response (url link) rule)
    as Hkeeps.
  { intros link (Hin & Hk & _)%Hproc. exists f. split; [done|].
    fold extracted. rewrite Hkeep.
    by apply list_elem_of_fmap_2, list_elem_of_filter. }
  assert (request_urls (rule_requests rule_index g response processed)
          `sublist_of` (url <$> extracted)) as Hsubl.
  { etrans; [by apply request_urls_rule_requests|].
    apply fmap_sublist. unfold processed. rewrite Hkeep.
    etrans; apply sublist_filter. }
  assert (∀ u, u ∈ request_urls
                     (rule_requests rule_index g response processed) →
            (u ∉ seen) ∧ u ∈ url <$> processed) as Hmine.
  { intros u (q & Hq & <-)%elem_of_request_urls.
    apply elem_of_rule_requests in Hq as (_ & link & Hlink & <-); [|done].
    split; [by apply Hproc in Hlink as (_ & _ & ?)|].
    by apply list_elem_of_fmap_2. }
  exists (rule_requests rule_index g response processed ++ outs), seen'.
  split; [done|]. split; [set_solver|]. split; [|split; [|split]].
  - rewrite request_urls_app. apply NoDup_app. split; [|split; [|done]].
    + eapply sublist_NoDup; [exact Hnodup | exact Hsubl].
    + intros u [_ Hu]%Hmine [Hnot _]%Hfresh. set_solver.
  - intros u. rewrite request_urls_app, elem_of_app.
    intros [[Hnot Hu]%Hmine | [Hnot Hu]%Hfresh]; set_solver.
  - intros rule' u [->|Hin]%elem_of_cons Hk.
    + apply Hsub, Hhere, Hk.
    + by eapply Hkept.
  - intros q [Hq|Hq]%elem_of_app.
    + exists 0. rewrite Nat.add_0_r.
      apply elem_of_rule_requests in Hq as (Hidx & link & Hlink & <-);
        [|done].
      split; [done|]. apply lowest_index_here, Hkeeps, Hlink.
    + destruct (Hattr q Hq) as (j & Hidx & Hlow). exists (S j).
      replace (rule_index + S j) with (S rule_index + j) by lia.
      split; [done|]. apply lowest_index_later; [|done].
      intros Hk%Hhere.
      destruct (Hfresh (req_url q)) as [Hnot _]; [|done].
      apply elem_of_request_urls. eauto.
Qed.

Lemma identity_pointwise : pointwise_filter _identity.
Proof.
  exists (λ _, true). intros links. unfold _identity.
  induction links as [|link rest IH]; [done|].
  rewrite filter_cons. case_decide; [|done]. by rewrite <- IH.
Qed.

Lemma drop_all_pointwise : pointwise_filter drop_all.
Proof.
  exists (λ _, false). intros links. unfold drop_all.
  induction links as [|link rest IH]; [done|].
  rewrite filter_cons. by case_decide.
Qed.

Lemma identity_routing_preserved response :
  routing_preserved _identity_process_request response.
Proof. intros request request' [= ->]. done. Qed.

(** Rule 0 extracts every link of the page and its link filter removes
    them all; the requests carry the index of rule 1. *)
Lemma first_rule_extracts_but_second_requests :
  ¬ once_by_lowest extracts spider_first_drops html_page.
Proof.
  intros [_ Hattr].
  destruct (Hattr (_build_request 1 lnk_item)) as (i & Hi & _ & Hlow).
  { assert (yielded (_requests_to_follow spider_first_drops html_page)
            = VRequest <$> (_build_request 1 <$> page_links html_page))
      as -> by reflexivity.
    apply list_elem_of_here. }
  assert (i = 1) as ->.
  { unfold rule_index_of in Hi. rewrite rule_index_of_build in Hi.
    simplify_eq. lia. }
  eapply (Hlow 0); [lia|reflexivity|].
  unfold extracts. simpl. apply list_elem_of_here.
Qed.

(** C1, amended. For an HTML response and a rule table in which no
    extractor returns a url twice, every link filter keeps or removes links
    one by one, and every request filter returns [None] or a request with the
    same url and rule index: [_requests_to_follow] raises nothing, yields at
    most one request per url, and each request carries the index of the
    lowest-indexed rule whose extractor produced its url and whose link
    filter kept it. *)
Theorem each_url_requested_once (self : CrawlSpider) (response : Response) :
  resp_html response = true →
  Forall (well_behaved response) (_rules self) →
  outcome (_requests_to_follow self response) = inr tt
  ∧ once_by_lowest keeps self response.
Proof.
  intros Hhtml Hwb.
  destruct (follow_rules_well_behaved response (_rules self) 0 ∅ Hwb)
    as (outs & seen' & Hrun & _ & Hnodup & _ & _ & Hattr).
  unfold once_by_lowest.
  rewrite requests_to_follow_html, Hrun, Gen_bind_ok by done. simpl.
  rewrite app_nil_r. done.
Qed.

Lemma each_url_requested_once_witness :
  once_by_lowest keeps spider_first_drops html_page.
Proof.
  refine (proj2 (each_url_requested_once spider_first_drops html_page
                   eq_refl _)).
  assert (NoDup (url <$> page_links html_page)) as Hnodup.
  { apply (bool_decide_unpack _). vm_compute. exact I. }
  constructor; [|constructor; [|constructor]].
  - split; [exact Hnodup|]. split.
    + exists drop_all. split; [reflexivity|apply drop_all_pointwise].
    + exists _identity_process_request.
      split; [reflexivity|apply identity_routing_preserved].
  - split; [exact Hnodup|]. split.
    + exists _identity. split; [reflexivity|apply identity_pointwise].
    + exists _identity_process_request.
      split; [reflexivity|apply identity_routing_preserved].
Defined.

Lemma lowest_index_iff (P Q : Rule → Prop) rules i :
  (∀ rule, rule ∈ rules → P rule ↔ Q rule) →
  lowest_index P rules i → lowest_index Q rules i.
Proof.
  intros Hiff [(rule & Hat & HP) Hbelow]. split.
  - exists rule. split; [done|].
    by apply Hiff; [eapply list_elem_of_lookup_2|].
  - intros j rule' Hlt Hlookup HQ. eapply Hbelow; [done..|].
    by apply Hiff; [eapply list_elem_of_lookup_2|].
Qed.

(** With the default link filter on every rule, the rule that requests a url
    is the lowest-indexed one whose extractor produced it. *)
Lemma default_filters_lowest_extracting (self : CrawlSpider)
    (response : Response) :
  resp_html response = true →
  Forall (well_behaved response) (_rules self) →
  Forall (λ rule, process_links rule = links_callable _identity)
         (_rules self) →
  once_by_lowest extracts self response.
Proof.
  intros Hhtml Hwb Hid.
  destruct (follow_rules_well_behaved response (_rules self) 0 ∅ Hwb)
    as (outs & seen' & Hrun & _ & Hnodup & _ & _ & Hattr).
  unfold once_by_lowest.
  rewrite requests_to_follow_html, Hrun, Gen_bind_ok by done. simpl.
  rewrite app_nil_r. split; [done|].
  intros q Hq. destruct (Hattr q Hq) as (i & Hi & Hlow).
  exists i. split; [done|].
  eapply lowest_index_iff; [|done].
  intros rule Hin. rewrite Forall_forall in Hid.
  unfold keeps, extracts. rewrite (Hid rule Hin). split.
  - intros (f & [= <-] & Hu). done.
  - intros Hu. by exists _identity.
Qed.

(** ** The failure path *)

Lemma handle_failure_callable self failure eb :
  _handle_failure self failure (Some (MCallable (FErrback eb)))
  = (iterate_spider_output (or_empty (eb failure)), inr tt).
Proof.
  unfold _handle_failure, given, call_errback. by rewrite Gen_bind_ret.
Qed.

Lemma handle_failure_absent self failure :
  _handle_failure self failure None = ([], inr tt).
Proof. done. Qed.

(** The failure is routed to the error callback of the rule its request
    names, and nothing but that callback's output is yielded: no link is
    followed. *)
Lemma errback_routed self failure i rule :
  req_meta (fail_request failure) !! "rule" = Some (MInt i) →
  py_index (_rules self) i = Some rule →
  _errback self failure = _handle_failure self failure (errback rule).
Proof.
  intros Hmeta Hrule. unfold _errback, rule_of_meta.
  rewrite Hmeta, Hrule. by rewrite Gen_bind_ret.
Qed.

(** For a result that is neither an awaitable nor an asynchronous iterator,
    the failure path yields what the callback block yields for the same
    result under the hook of [CrawlSpider]. *)
Lemma handle_failure_plain self failure response kw eb cb :
  process_results self = CrawlSpider_process_results →
  eb failure = cb response kw →
  await_result (or_empty (cb response kw)) = or_empty (cb response kw) →
  _handle_failure self failure (Some (MCallable (FErrback eb)))
  = callback_output self response (Some (MCallable (FCallback cb))) kw.
Proof.
  intros Hhook Heq Hplain.
  rewrite handle_failure_callable, callback_output_callable.
  by rewrite Hhook, Hplain, Heq.
Qed.

Lemma errback_plain_example :
  _errback (spider_with_handlers (FCallback parse_page)
                                 (FErrback on_error_plain)) failure_rule0
  = ([item_a; item_b], inr tt).
Proof. reflexivity. Qed.

(** C4, at the failing input: an error callback that returns an awaitable.
    The success path awaits the same result of a callback and yields its
    items; the failure path yields the awaitable itself. *)
Theorem errback_result_not_awaited :
  let self := spider_with_handlers (FCallback parse_page_awaitable)
                                   (FErrback on_error_awaitable) in
  _errback self failure_rule0
  = ([VAwaitable (VSeq [item_a; item_b])], inr tt)
  ∧ parse_with_rules self text_page
      (Some (MCallable (FCallback parse_page_awaitable))) ∅ false
    = ([item_a; item_b], inr tt)
  ∧ on_error_awaitable failure_rule0 = parse_page_awaitable text_page ∅.
Proof. repeat split. Qed.

(** ** Names that do not resolve *)

Lemma get_method_unresolved (spider : CrawlSpider) (name : string) :
  attrs spider !! name = None →
  _get_method (Some (MName name)) spider = None.
Proof. intros H. unfold _get_method. by rewrite H. Qed.

(** An absent callback or error callback is silent. *)
Lemma absent_callbacks_silent :
  (callback <$> _rules spider_missing_callbacks !! 0 = Some None)
  ∧ (errback <$> _rules spider_missing_callbacks !! 0 = Some None)
  ∧ outcome (_callback spider_missing_callbacks two_link_page ∅) = inr tt
  ∧ _errback spider_missing_callbacks failure_rule0 = ([], inr tt).
Proof. repeat split. Qed.

(** C9, at the failing input: a rule whose link filter or request filter is
    given as a name the spider does not have. Compilation leaves [None] in
    the field, and the first traversal of an HTML page raises [TypeError]. *)
Theorem unresolved_filter_raises :
  (process_links <$> _rules spider_missing_process_links !! 0 = Some None
   ∧ _requests_to_follow spider_missing_process_links html_page
     = ([], inl TypeError)
   ∧ parse_with_rules spider_missing_process_links html_page None ∅ true
     = ([], inl TypeError))
  ∧ (process_request <$> _rules spider_missing_process_request !! 0
     = Some None
     ∧ _requests_to_follow spider_missing_process_request html_page
       = ([], inl TypeError)).
Proof. repeat split. Qed.

(** ** Routing metadata *)

Lemma py_index_nat {A} (l : list A) (i : nat) :
  py_index l (Z.of_nat i) = l !! i.
Proof.
  unfold py_index. rewrite decide_True by lia. by rewrite Nat2Z.id.
Qed.

Lemma py_index_out_of_range {A} (l : list A) (i : Z) :
  (Z.of_nat (length l) ≤ i ∨ i < - Z.of_nat (length l))%Z →
  py_index l i = None.
Proof.
  intros Hrange. unfold py_index.
  destruct (decide (0 ≤ i)%Z).
  - apply lookup_ge_None. lia.
  - rewrite decide_False by lia. done.
Qed.

Lemma rule_of_meta_index self (meta : gmap string MetaVal) i rule :
  meta !! "rule" = Some (MInt (Z.of_nat i)) →
  _rules self !! i = Some rule →
  rule_of_meta self meta = mret rule.
Proof.
  intros Hmeta Hrule. unfold rule_of_meta.
  by rewrite Hmeta, py_index_nat, Hrule.
Qed.

(** X1. The routing metadata round trip: a response that carries the meta
    of the request [_build_request i link] is handled by [_callback] with
    the callback, the keyword arguments and the follow flag of rule [i]. *)
Theorem callback_routes_to_building_rule (self : CrawlSpider)
    (response : Response) (i : nat) (link : Link) (rule : Rule)
    (kw : gmap string Value) :
  _rules self !! i = Some rule →
  resp_meta response = req_meta (_build_request i link) →
  _callback self response kw
  = parse_with_rules self response (callback rule) (kw ∪ cb_kwargs rule)
                     (follow rule).
Proof.
  intros Hrule Hmeta. unfold _callback.
  rewrite (rule_of_meta_index self _ i rule); [by rewrite Gen_bind_ret| |done].
  rewrite Hmeta. apply rule_index_of_build.
Qed.

Lemma callback_routes_to_building_rule_witness :
  let response :=
    mkResponse (url lnk_item) true [lnk_about]
               (req_meta (_build_request 0 lnk_item)) in
  _callback spider_one_rule response ∅
  = parse_with_rules spider_one_rule response None (∅ ∪ ∅) true.
Proof.
  intros response.
  exact (callback_routes_to_building_rule spider_one_rule response
           0 lnk_item _ ∅ eq_refl eq_refl).
Defined.

(** Requests yielded while rule [rule_index] runs carry that index. *)
Lemma follow_links_indices rule_index rule response links seen q :
  (∀ g, process_request rule = request_callable g →
        rule_index_preserved g response) →
  VRequest q ∈ yielded (follow_links rule_index rule response links seen) →
  rule_index_of q rule_index.
Proof.
  intros Hroute. revert seen.
  induction links as [|link rest IH]; intros seen.
  - intros Hin. by apply elem_of_nil in Hin.
  - rewrite follow_links_cons.
    destruct (process_request rule) as [[[| | |g]|]|] eqn:Hg;
      try (intros Hin; by apply elem_of_nil in Hin).
    unfold call_process_request.
    rewrite Gen_bind_ret, Gen_yield_bind. unfold yielded. simpl.
    intros [Hhere|Hlater]%elem_of_cons; [|by eapply IH].
    destruct (g (_build_request rule_index link) response) as [q'|] eqn:Hq;
      simplify_eq/=.
    unfold rule_index_of. rewrite (Hroute g eq_refl _ _ Hq).
    apply rule_index_of_build.
Qed.

Lemma follow_rules_indices response rules rule_index seen q :
  (∀ rule g, rule ∈ rules → process_request rule = request_callable g →
             rule_index_preserved g response) →
  VRequest q ∈ yielded (follow_rules response rule_index rules seen) →
  ∃ j, j < length rules ∧ rule_index_of q (rule_index + j).
Proof.
  revert rule_index seen.
  induction rules as [|rule rest IH]; intros rule_index seen Hroute.
  - intros Hin. by apply elem_of_nil in Hin.
  - rewrite follow_rules_step.
    unfold call_process_links.
    destruct (process_links rule) as [[[| |f|]|]|];
      try (rewrite Gen_bind_raise; intros Hin; by apply elem_of_nil in Hin).
    set (processed := f _). rewrite Gen_bind_ret.
    destruct (follow_links rule_index rule response processed seen)
      as [o2 [e|seen1]] eqn:Hfl.
    + rewrite Gen_bind_err. unfold yielded. simpl. intros Hin.
      exists 0. rewrite Nat.add_0_r. split; [simpl; lia|].
      eapply (follow_links_indices _ rule response processed seen).
      * intros g Hg. eapply Hroute; [apply list_elem_of_here|done].
      * by rewrite Hfl.
    + rewrite yielded_bind_ok. intros [Hin|Hin]%elem_of_app.
      * exists 0. rewrite Nat.add_0_r. split; [simpl; lia|].
        eapply (follow_links_indices _ rule response processed seen).
        -- intros g Hg. eapply Hroute; [apply list_elem_of_here|done].
        -- by rewrite Hfl.
      * destruct (IH (S rule_index) seen1) with (2 := Hin)
          as (j & Hlt & Hidx).
        { intros rule' g Hin'. apply Hroute. by apply list_elem_of_further. }
        exists (S j). split; [simpl; lia|].
        by replace (rule_index + S j) with (S rule_index + j) by lia.
Qed.

(** X2. When every request filter of the table returns [None] or a request
    with the rule index it was given (it may rewrite the url and anything
    else), every request that
    [_requests_to_follow] yields names a rule of the table: looking its
    meta up again raises neither [KeyError] nor [IndexError]. *)
Theorem yielded_requests_route_back (self : CrawlSpider)
    (response : Response) (q : Request) :
  (∀ rule g, rule ∈ _rules self →
             process_request rule = request_callable g →
             rule_index_preserved g response) →
  VRequest q ∈ yielded (_requests_to_follow self response) →
  ∃ rule, rule_of_meta self (req_meta q) = mret rule.
Proof.
  intros Hroute. unfold _requests_to_follow.
  destruct (resp_html response); simpl.
  2: { intros Hin. by apply elem_of_nil in Hin. }
  destruct (follow_rules response 0 (_rules self) ∅) as [outs [e|seen]] eqn:Hrun.
  - rewrite Gen_bind_err. unfold yielded. simpl. intros Hin.
    destruct (follow_rules_indices response (_rules self) 0 ∅ q Hroute)
      as (j & Hlt & Hidx); [by rewrite Hrun|].
    destruct (lookup_lt_is_Some_2 (_rules self) j Hlt) as [rule Hrule].
    exists rule. by eapply rule_of_meta_index.
  - rewrite yielded_bind_ok.
    change (yielded (mret ())) with (@nil Value).
    rewrite app_nil_r. intros Hin.
    destruct (follow_rules_indices response (_rules self) 0 ∅ q Hroute)
      as (j & Hlt & Hidx); [by rewrite Hrun|].
    destruct (lookup_lt_is_Some_2 (_rules self) j Hlt) as [rule Hrule].
    exists rule. by eapply rule_of_meta_index.
Qed.

Lemma rewrite_url_rule_index_preserved response :
  rule_index_preserved rewrite_url response.
Proof.
  intros request request' [= <-]. simpl. by rewrite lookup_insert_ne.
Qed.

Lemma yielded_requests_route_back_witness :
  ∃ rule, rule_of_meta spider_rewrite
            (<[ "response_class" := MStr "HtmlResponse" ]>
               (req_meta (_build_request 0 lnk_about))) = mret rule.
Proof.
  refine (yielded_requests_route_back spider_rewrite html_page
            {| req_url := url lnk_about +:+ "?from=" +:+ resp_url html_page;
               req_callback := CrawlSpider_callback;
               req_errback := CrawlSpider_errback;
               req_meta := <[ "response_class" := MStr "HtmlResponse" ]>
                             (req_meta (_build_request 0 lnk_about)) |}
            _ _).
  - intros rule g Hin Hg.
    assert (g = rewrite_url) as ->; [|apply rewrite_url_rule_index_preserved].
    apply list_elem_of_In in Hin. simpl in Hin.
    destruct Hin as [<-|[]]. simpl in Hg. by simplify_eq.
  - apply list_elem_of_In. vm_compute. tauto.
Defined.

(** X3. A response or failure whose meta has no "rule" key: [_callback]
    and [_errback] raise [KeyError] before any callback runs, and yield
    nothing. *)
Theorem routing_without_rule_key (self : CrawlSpider) (response : Response)
    (failure : Failure) (kw : gmap string Value) :
  resp_meta response !! "rule" = None →
  req_meta (fail_request failure) !! "rule" = None →
  _callback self response kw = ([], inl KeyError)
  ∧ _errback self failure = ([], inl KeyError).
Proof.
  intros Hresp Hfail. unfold _callback, _errback, rule_of_meta.
  by rewrite Hresp, Hfail.
Qed.

Lemma routing_without_rule_key_witness :
  _callback spider_one_rule html_page ∅ = ([], inl KeyError)
  ∧ _errback spider_one_rule
      (mkFailure (mkRequest "http://example.org/" CrawlSpider_callback
                            CrawlSpider_errback ∅) "timeout")
    = ([], inl KeyError).
Proof.
  apply routing_without_rule_key; reflexivity.
Defined.

(** X4. A rule index outside the compiled table (at or beyond its length,
    or below minus its length): [_callback] and [_errback] raise
    [IndexError] and yield nothing. *)
Theorem routing_index_out_of_range (self : CrawlSpider) (response : Response)
    (failure : Failure) (kw : gmap string Value) (i : Z) :
  (Z.of_nat (length (_rules self)) ≤ i ∨ i < - Z.of_nat (length (_rules self)))%Z →
  resp_meta response !! "rule" = Some (MInt i) →
  req_meta (fail_request failure) !! "rule" = Some (MInt i) →
  _callback self response kw = ([], inl IndexError)
  ∧ _errback self failure = ([], inl IndexError).
Proof.
  intros Hrange Hresp Hfail. unfold _callback, _errback, rule_of_meta.
  by rewrite Hresp, Hfail, py_index_out_of_range.
Qed.

Lemma routing_index_out_of_range_witness :
  _callback spider_one_rule
    (mkResponse "http://example.org/" true [] {[ "rule" := MInt 1 ]}) ∅
  = ([], inl IndexError)
  ∧ _errback spider_one_rule (mkFailure (_build_request 1 lnk_item) "timeout")
    = ([], inl IndexError).
Proof.
  apply (routing_index_out_of_range _ _ _ _ 1); [simpl; lia|reflexivity..].
Defined.

(** ** The follow decision *)

Lemma parse_with_rules_no_follow self response cb kw :
  parse_with_rules self response cb kw false
  = callback_output self response cb kw.
Proof.
  unfold parse_with_rules, follow_enabled.
  rewrite Gen_bind_ret. apply Gen_bind_unit.
Qed.

(** X5. A response that came from a rule whose follow flag is off: the
    traversal yields the callback block's output and nothing else, whatever
    [_follow_links] holds, also when it was never set. *)
Theorem callback_rule_without_follow (self : CrawlSpider)
    (response : Response) (i : nat) (rule : Rule) (kw : gmap string Value) :
  resp_meta response !! "rule" = Some (MInt (Z.of_nat i)) →
  _rules self !! i = Some rule →
  follow rule = false →
  _callback self response kw
  = callback_output self response (callback rule) (kw ∪ cb_kwargs rule).
Proof.
  intros Hmeta Hrule Hfollow. unfold _callback.
  rewrite (rule_of_meta_index self _ i rule) by done.
  rewrite Gen_bind_ret, Hfollow. apply parse_with_rules_no_follow.
Qed.

Lemma callback_rule_without_follow_witness :
  let declared :=
    Rule_init None (Some (MCallable (FCallback parse_page))) None None
              None None None in
  let self := CrawlSpider_init ∅ [declared] in
  _callback self two_link_page ∅ = ([item_a; item_b], inr tt).
Proof.
  intros declared self.
  exact (eq_trans
           (callback_rule_without_follow self two_link_page 0
              (_compile declared self) ∅ eq_refl eq_refl eq_refl)
           eq_refl).
Defined.

(** X6. The start page of a spider that keeps the hooks of [CrawlSpider]
    and was built by [from_crawler] with following on: [_parse] yields
    exactly what [_requests_to_follow] yields. *)
Theorem parse_start_page (self : CrawlSpider) (response : Response)
    (kw : gmap string Value) :
  parse_start_url self = CrawlSpider_parse_start_url →
  process_results self = CrawlSpider_process_results →
  _follow_links self = Some true →
  _parse self response kw = _requests_to_follow self response.
Proof.
  intros Hstart Hhook Hfollow. unfold _parse, parse_with_rules, follow_enabled.
  rewrite callback_output_callable, Hstart, Hhook, Hfollow, Gen_bind_ret.
  apply (Gen_bind_ret tt).
Qed.

Lemma parse_start_page_witness :
  _parse spider_one_rule html_page ∅
  = _requests_to_follow spider_one_rule html_page.
Proof.
  apply parse_start_page; reflexivity.
Defined.

(** X7. A spider that did not go through [from_crawler] has no
    [_follow_links]: a traversal asked to follow yields the callback
    block's output and then raises [AttributeError]; no link is followed. *)
Theorem follow_without_from_crawler (self : CrawlSpider) (response : Response)
    (cb : option Method) (kw : gmap string Value) (items : list Value) :
  _follow_links self = None →
  callback_output self response cb kw = (items, inr tt) →
  parse_with_rules self response cb kw true = (items, inl AttributeError).
Proof.
  intros Hnone Hcb. unfold parse_with_rules, follow_enabled.
  rewrite Hnone, Hcb, Gen_bind_ok. unfold raise. rewrite Gen_bind_err.
  simpl. by rewrite app_nil_r.
Qed.

Lemma follow_without_from_crawler_witness :
  parse_with_rules (CrawlSpider_init ∅ [default_rule]) html_page
    (Some (MCallable (FCallback parse_page))) ∅ true
  = ([item_a; item_b], inl AttributeError).
Proof.
  apply follow_without_from_crawler; reflexivity.
Defined.

(** ** What a rule table yields *)

Lemma filter_all {A} (P : A → Prop) `{!∀ x, Decision (P x)} (l : list A) :
  (∀ x, P x) → filter P l = l.
Proof.
  intros HP. induction l as [|x l IH]; [done|].
  rewrite filter_cons, decide_True by done. by rewrite IH.
Qed.

(** X8. A table of one rule with callable filters, on an HTML response:
    the link filter receives every extracted link, and the traversal yields
    the request filter's result for each link the link filter returned, in
    that order, and raises nothing. *)
Theorem single_rule_requests (self : CrawlSpider) (response : Response)
    (rule : Rule) (f : list Link → list Link)
    (g : Request → Response → option Request) :
  resp_html response = true →
  _rules self = [rule] →
  process_links rule = links_callable f →
  process_request rule = request_callable g →
  _requests_to_follow self response
  = ((λ link, request_or_none (g (_build_request 0 link) response))
       <$> f (extract_links (link_extractor rule) response), inr tt).
Proof.
  intros Hhtml Hrules Hf Hg.
  rewrite requests_to_follow_html, Hrules by done.
  rewrite (follow_rules_cons _ _ _ _ _ f g) by done.
  rewrite filter_all by set_solver.
  rewrite follow_rules_nil, Gen_bind_ok.
  simpl. rewrite Gen_bind_ok. simpl. by rewrite !app_nil_r.
Qed.

Lemma single_rule_requests_witness :
  _requests_to_follow spider_suppress html_page
  = ((λ link, request_or_none (suppress (_build_request 0 link) html_page))
       <$> _identity (page_links html_page), inr tt).
Proof.
  exact (single_rule_requests spider_suppress html_page _ _identity suppress
           eq_refl eq_refl eq_refl eq_refl).
Defined.

(** X9. A table of two rules with callable filters: the second rule's link
    filter receives the links of its extractor whose url the first rule's
    link filter did not return. What the first rule's request filter did
    with a link (changed it, returned [None]) makes no difference. *)
Theorem two_rule_requests (self : CrawlSpider) (response : Response)
    (rule1 rule2 : Rule) (f1 f2 : list Link → list Link)
    (g1 g2 : Request → Response → option Request) :
  resp_html response = true →
  _rules self = [rule1; rule2] →
  process_links rule1 = links_callable f1 →
  process_request rule1 = request_callable g1 →
  process_links rule2 = links_callable f2 →
  process_request rule2 = request_callable g2 →
  let claimed := f1 (extract_links (link_extractor rule1) response) in
  let left_over :=
    filter (λ lnk, url lnk ∉ url <$> claimed)
           (extract_links (link_extractor rule2) response) in
  _requests_to_follow self response
  = (((λ link, request_or_none (g1 (_build_request 0 link) response))
        <$> claimed)
     ++ ((λ link, request_or_none (g2 (_build_request 1 link) response))
           <$> f2 left_over), inr tt).
Proof.
  intros Hhtml Hrules Hf1 Hg1 Hf2 Hg2 claimed left_over.
  rewrite requests_to_follow_html, Hrules by done.
  rewrite (follow_rules_cons _ _ _ _ _ f1 g1) by done.
  rewrite filter_all by set_solver. fold claimed.
  rewrite (follow_rules_cons _ _ _ _ _ f2 g2) by done.
  assert (filter (λ lnk, url lnk ∉ (list_to_set (url <$> claimed) ∪ ∅
                                      : gset string))
                 (extract_links (link_extractor rule2) response)
          = left_over) as ->.
  { apply list_filter_iff. intros lnk. set_solver. }
  rewrite follow_rules_nil, !Gen_bind_ok. simpl.
  rewrite !Gen_bind_ok. simpl. by rewrite !app_nil_r.
Qed.

Lemma two_rule_requests_witness :
  _requests_to_follow spider_first_drops html_page
  = ([] ++ (VRequest <$> (_build_request 1 <$> page_links html_page)),
     inr tt).
Proof.
  exact (eq_trans
           (two_rule_requests spider_first_drops html_page _ _
              drop_all _identity _identity_process_request
              _identity_process_request
              eq_refl eq_refl eq_refl eq_refl eq_refl eq_refl)
           eq_refl).
Defined.

(** X10. A rule whose link filter is absent stops the traversal with
    [TypeError]; what the rules before it yielded stays yielded, and the
    rules after it are not consulted. *)
Theorem absent_link_filter_stops_table (self : CrawlSpider)
    (response : Response) (pre post : list Rule) (rule : Rule)
    (outs : list Value) (seen : gset string) :
  resp_html response = true →
  _rules self = pre ++ rule :: post →
  follow_rules response 0 pre ∅ = (outs, inr seen) →
  process_links rule = None →
  _requests_to_follow self response = (outs, inl TypeError).
Proof.
  intros Hhtml Hrules Hrun Hnone.
  rewrite requests_to_follow_html, Hrules, follow_rules_app by done.
  rewrite Hrun, Gen_bind_ok, follow_rules_step, Hnone.
  unfold call_process_links. rewrite Gen_bind_raise. simpl.
  by rewrite Gen_bind_err, app_nil_r.
Qed.

Lemma absent_link_filter_stops_table_witness :
  _requests_to_follow spider_missing_process_links html_page
  = ([], inl TypeError).
Proof.
  exact (absent_link_filter_stops_table spider_missing_process_links
           html_page [] [] _ [] ∅ eq_refl eq_refl eq_refl eq_refl).
Defined.

(** X11. A rule whose request filter is absent raises [TypeError] when the
    first link reaches it, and not before: if its link filter returns no
    link, the traversal ends normally. Nothing is yielded either way. *)
Theorem absent_request_filter_needs_a_link (self : CrawlSpider)
    (response : Response) (rule : Rule) (f : list Link → list Link) :
  resp_html response = true →
  _rules self = [rule] →
  process_links rule = links_callable f →
  process_request rule = None →
  _requests_to_follow self response
  = ([], match f (extract_links (link_extractor rule) response) with
         | [] => inr tt
         | _ :: _ => inl TypeError
         end).
Proof.
  intros Hhtml Hrules Hf Hnone.
  rewrite requests_to_follow_html, Hrules, follow_rules_step, Hf by done.
  unfold call_process_links. rewrite Gen_bind_ret.
  rewrite filter_all by set_solver.
  destruct (f _) as [|link rest].
  - change (follow_links 0 rule response [] ∅) with (mret ∅ : Gen (gset string)).
    by rewrite Gen_bind_ret, follow_rules_nil, Gen_bind_ret.
  - rewrite follow_links_cons, Hnone. unfold call_process_request.
    by rewrite !Gen_bind_raise.
Qed.

Lemma absent_request_filter_needs_a_link_witness :
  _requests_to_follow spider_missing_process_request html_page
  = ([], inl TypeError).
Proof.
  exact (absent_request_filter_needs_a_link spider_missing_process_request
           html_page _ _identity eq_refl eq_refl eq_refl eq_refl).
Defined.

(** ** From declaration to requests *)

(** X12. A spider whose only rule is declared without filters, whatever
    its other arguments and whatever methods the spider has: on an HTML
    response it yields one request per link its extractor returns, in
    order, bound to [_callback] and [_errback] and tagged with rule 0 and
    the link's text. Links with the same url inside this one list are not
    merged. *)
Theorem unfiltered_rule_follows_every_link (methods : gmap string PyFun)
    (settings : Settings) (response : Response)
    (le : option LinkExtractor) (cb eb : option Method)
    (kw : option (gmap string Value)) (fl : option bool) :
  resp_html response = true →
  _requests_to_follow
    (from_crawler settings
       (CrawlSpider_init methods [Rule_init le cb kw fl None None eb]))
    response
  = ((λ link, VRequest
                {| req_url := url link;
                   req_callback := CrawlSpider_callback;
                   req_errback := CrawlSpider_errback;
                   req_meta := {[ "rule" := MInt 0;
                                  "link_text" := MStr (text link) ]} |})
       <$> extract_links (default _default_link_extractor le) response,
     inr tt).
Proof.
  intros Hhtml.
  erewrite (single_rule_requests _ response _ _identity
              _identity_process_request);
    [|exact Hhtml|reflexivity..].
  reflexivity.
Qed.

Lemma unfiltered_rule_follows_every_link_witness :
  yielded (_requests_to_follow spider_one_rule html_page)
  = VRequest <$> (_build_request 0 <$> [lnk_item; lnk_about; lnk_nofollow]).
Proof.
  exact (eq_trans
           (f_equal fst
              (unfiltered_rule_follows_every_link ∅ default_settings
                 html_page None None None None None eq_refl))
           eq_refl).
Defined.

(** X13. Filters declared by name are the spider's methods of that name:
    a rule declared with the names of a link filter [f] and a request
    filter [g] the spider has yields, for each link [f] returns of the
    page's links, what [g] makes of its request. *)
Theorem named_filters_are_spider_methods (methods : gmap string PyFun)
    (settings : Settings) (response : Response)
    (links_name request_name : string)
    (f : list Link → list Link) (g : Request → Response → option Request) :
  links_name ≠ "" →
  request_name ≠ "" →
  methods !! links_name = Some (FProcessLinks f) →
  methods !! request_name = Some (FProcessRequest g) →
  resp_html response = true →
  _requests_to_follow
    (from_crawler settings
       (CrawlSpider_init methods
          [Rule_init None None None None (Some (MName links_name))
                     (Some (MName request_name)) None]))
    response
  = ((λ link, request_or_none (g (_build_request 0 link) response))
       <$> f (page_links response), inr tt).
Proof.
  intros Hl Hr Hf Hg Hhtml.
  erewrite (single_rule_requests _ response _ f g);
    [|exact Hhtml|reflexivity| |].
  - reflexivity.
  - simpl. unfold or_default, given.
    destruct links_name; [done|]. simpl. by rewrite Hf.
  - simpl. unfold or_default, given.
    destruct request_name; [done|]. simpl. by rewrite Hg.
Qed.

Lemma named_filters_are_spider_methods_witness :
  _requests_to_follow
    (from_crawler default_settings
       (CrawlSpider_init
          {[ "drop" := FProcessLinks drop_all;
             "none" := FProcessRequest suppress ]}
          [Rule_init None None None None (Some (MName "drop"))
                     (Some (MName "none")) None]))
    html_page
  = ((λ link, request_or_none (suppress (_build_request 0 link) html_page))
       <$> drop_all (page_links html_page), inr tt).
Proof.
  apply named_filters_are_spider_methods; done.
Defined.

(** X14. The failure of a request whose rule has no error callback is
    dropped: [_errback] yields nothing and raises nothing. *)
Theorem failure_without_errback (self : CrawlSpider) (failure : Failure)
    (i : nat) (rule : Rule) :
  req_meta (fail_request failure) !! "rule" = Some (MInt (Z.of_nat i)) →
  _rules self !! i = Some rule →
  errback rule = None →
  _errback self failure = ([], inr tt).
Proof.
  intros Hmeta Hrule Hnone. unfold _errback.
  rewrite (rule_of_meta_index self _ i rule) by done.
  by rewrite Gen_bind_ret, Hnone.
Qed.

Lemma failure_without_errback_witness :
  _errback spider_one_rule failure_rule0 = ([], inr tt).
Proof.
  exact (failure_without_errback spider_one_rule failure_rule0 0
           (_compile default_rule (CrawlSpider_init ∅ []))
           eq_refl eq_refl eq_refl).
Defined.
